(** * Settings views of sentry: legacy-URL translation and danger-zone gating

    A shallow embedding of

    - [NewSettingsWarning] of [views/settings/settingsLayout.jsx], the
      component that translates a new-style settings URL back to the URL of
      the old settings page and decides how the link is rendered;
    - [renderRemoveProject] and [renderTransferProject] of
      [views/projectGeneralSettings.jsx];
    - [renderBody] and [handleSubmitSuccess] of
      [views/settings/team/teamSettings.jsx].

    [NewSettingsWarning] is embedded twice: on path strings, and step by
    step on JavaScript values, where [pathname] may be [undefined]; the two
    are proved to agree.

    JavaScript strings are modelled as [string]; the regular expression
    literals of the source are kept as data and run by a small backtracking
    matcher, and [String.prototype.replace] is modelled for both kinds of
    pattern the source uses (a string, a non-global regular expression). *)

From Stdlib Require Import Strings.String Strings.Ascii List Bool Lia.
From stdpp Require Import base strings gmap.

Import ListNotations.
Local Open Scope string_scope.

(** stdpp freezes [String.append] under [simpl]; the proofs below compute
    with literal prefixes, so it is made transparent to [simpl] again. *)
Local Arguments String.append !_ _ /.

(** ** JavaScript strings *)

Module JSString.

(** [startsWith l s] is the rest of [s] after the prefix [l], when [l] is
    a prefix of [s]. *)
Fixpoint startsWith (l s : string) : option string :=
  match l with
  | EmptyString => Some s
  | String a l' =>
      match s with
      | EmptyString => None
      | String b s' => if Ascii.eqb a b then startsWith l' s' else None
      end
  end.

(** [indexOf pat s]: the first occurrence of [pat] in [s], searched from
    the left, as the text before it and the text after it. *)
Fixpoint indexOf (pat s : string) : option (string * string) :=
  match startsWith pat s with
  | Some after => Some (EmptyString, after)
  | None =>
      match s with
      | EmptyString => None
      | String c s' =>
          match indexOf pat s' with
          | Some (before, after) => Some (String c before, after)
          | None => None
          end
      end
  end.

(** [s] contains [sub] as a substring. *)
Definition contains (sub s : string) : Prop :=
  exists pre post, s = pre ++ sub ++ post.

(** No character of [s] is a slash. *)
Fixpoint noSlash (s : string) : bool :=
  match s with
  | EmptyString => true
  | String c s' => negb (Ascii.eqb c "/") && noSlash s'
  end.

(** A path segment: non-empty and without a slash. *)
Definition segment (s : string) : Prop :=
  s <> EmptyString /\ noSlash s = true.

(** The replacement text of [replace] (GetSubstitution): [$$] stands for
    a dollar sign and [$n], a single digit from 1 to 9, for the n-th
    capture when the match has that many captures; any other dollar sign
    is kept. The templates of this program use [$1] and [$2] only; the
    forms with [$&], with a quote, with two digits or with a name occur in
    no template and are not modelled. *)
Definition digit (c : ascii) : option nat :=
  let code := nat_of_ascii c in
  if Nat.leb 49 code && Nat.leb code 57 then Some (code - 48) else None.

Fixpoint getSubstitution (captures : list string) (template : string) : string :=
  match template with
  | EmptyString => EmptyString
  | String c t =>
      if Ascii.eqb c "$" then
        match t with
        | EmptyString => String c EmptyString
        | String d t' =>
            if Ascii.eqb d "$" then String "$" (getSubstitution captures t')
            else
              match digit d with
              | Some n =>
                  match nth_error captures (n - 1) with
                  | Some cap => cap ++ getSubstitution captures t'
                  | None => String c (String d (getSubstitution captures t'))
                  end
              | None => String c (String d (getSubstitution captures t'))
              end
        end
      else String c (getSubstitution captures t)
  end.

(** [s.replace(pat, template)] with a string pattern: only the first
    occurrence is replaced, and a string without one is returned as it
    is. *)
Definition replace (pat template s : string) : string :=
  match indexOf pat s with
  | Some (before, after) => before ++ getSubstitution [] template ++ after
  | None => s
  end.

End JSString.

(** ** Regular expressions *)

Module RegExp.
Import JSString.

(** The pieces the regular expressions of the source are made of:
    a literal text, the capturing group [([^\/]+)], and a capturing group
    of literal alternatives such as [(auth|account)]. *)
Inductive tok : Type :=
| Lit (l : string)
| Seg
| Alt (alts : list string).

(** A regular expression: [anchored] says that it starts with [^]. None
    of the regular expressions of the source has a flag. *)
Record t : Type := mk { anchored : bool; body : list tok }.

Section Matcher.
Context {R : Type}.

(** [[^\/]+], greedy: one character that is not a slash, then as many
    more as the rest of the pattern allows, the longest run first. *)
Fixpoint seg_loop (k : string -> string -> option R) (s : string) : option R :=
  match s with
  | EmptyString => None
  | String c s' =>
      if Ascii.eqb c "/" then None
      else
        match seg_loop (fun cap rest => k (String c cap) rest) s' with
        | Some r => Some r
        | None => k (String c EmptyString) s'
        end
  end.

(** [(a|b|...)]: the alternatives from left to right. *)
Fixpoint alt_loop (k : string -> string -> option R) (alts : list string)
         (s : string) : option R :=
  match alts with
  | [] => None
  | a :: alts' =>
      match
        match startsWith a s with
        | Some rest => k a rest
        | None => None
        end
      with
      | Some r => Some r
      | None => alt_loop k alts' s
      end
  end.
End Matcher.

(** [run r caps s] matches [r] at the start of [s]: the captures of the
    groups, in order, and the text after the match. *)
Fixpoint run (r : list tok) (caps : list string) (s : string)
  : option (list string * string) :=
  match r with
  | [] => Some (caps, s)
  | Lit l :: r' =>
      match startsWith l s with
      | Some rest => run r' caps rest
      | None => None
      end
  | Seg :: r' => seg_loop (fun cap rest => run r' (caps ++ [cap]) rest) s
  | Alt alts :: r' =>
      alt_loop (fun cap rest => run r' (caps ++ [cap]) rest) alts s
  end.

(** The leftmost match of an unanchored body: the text before the match,
    the captures and the text after it. *)
Fixpoint search (r : list tok) (s : string)
  : option (string * list string * string) :=
  match run r [] s with
  | Some (caps, after) => Some (EmptyString, caps, after)
  | None =>
      match s with
      | EmptyString => None
      | String c s' =>
          match search r s' with
          | Some (before, caps, after) => Some (String c before, caps, after)
          | None => None
          end
      end
  end.

(** [re.exec(s)] for a regular expression without flags. *)
Definition exec (re : t) (s : string) : option (string * list string * string) :=
  if anchored re then
    match run (body re) [] s with
    | Some (caps, after) => Some (EmptyString, caps, after)
    | None => None
    end
  else search (body re) s.

(** [re.test(s)]. *)
Definition test (re : t) (s : string) : bool :=
  match exec re s with Some _ => true | None => false end.

(** [s.replace(re, template)] for a regular expression without the
    global flag: the first match is replaced. *)
Definition replace (re : t) (template s : string) : string :=
  match exec re s with
  | Some (before, caps, after) =>
      before ++ getSubstitution caps template ++ after
  | None => s
  end.

End RegExp.

(** ** settingsLayout.jsx *)

Module SettingsLayout.
Import RegExp.

(** A location object: its properties by name. [location.pathname] is the
    lookup of ["pathname"], [None] standing for [undefined]. *)
Abbreviation Location := (gmap string string).

(** [/^\/settings\/organization\/([^\/]+)\/project\/([^\/]+)\//] *)
Definition projectRegex : RegExp.t :=
  RegExp.mk true [Lit "/settings/organization/"; Seg; Lit "/project/"; Seg; Lit "/"].

(** [/^\/settings\/account\/([^\/]+)\//] *)
Definition accountRegex : RegExp.t :=
  RegExp.mk true [Lit "/settings/account/"; Seg; Lit "/"].

(** [/^\/settings\/organization\//], the pattern of the last branch. *)
Definition organizationRegex : RegExp.t :=
  RegExp.mk true [Lit "/settings/organization/"].

(** [/\/(auth|account)\//] *)
Definition djangoRegex : RegExp.t :=
  RegExp.mk false [Lit "/"; Alt ["auth"; "account"]; Lit "/"].

(** The first step of the account branch:
    [pathname.replace(accountRegex, '/account/settings/$1/')]. *)
Definition accountRewrite (pathname : string) : string :=
  RegExp.replace accountRegex "/account/settings/$1/" pathname.

(** The value of the variable [oldLocation] for a path name. *)
Definition oldLocation (pathname : string) : string :=
  let isProject := test projectRegex pathname in
  let isAccount := test accountRegex pathname in
  if isProject then
    RegExp.replace projectRegex "/$1/$2/settings/" pathname
  else if isAccount then
    let s1 := accountRewrite pathname in
    let s2 := JSString.replace "details/" EmptyString s1 in
    let s3 := JSString.replace "settings/close-account/" "remove/" s2 in
    let s4 := JSString.replace "account/settings/api/" "api/" s3 in
    JSString.replace "auth-tokens/" EmptyString s4
  else
    RegExp.replace organizationRegex "/organizations/" pathname.

(** The value of the variable [isRouter] for a path name. *)
Definition isRouter (pathname : string) : bool :=
  negb (test djangoRegex pathname).

(** What the component renders inside the alert: the element of the link
    to the old settings page, react-router's [Link] or a plain [a], and
    the two properties it is given. *)
Inductive LinkWithFallback : Type := Link | Anchor.

Record linkProps : Type := { href : option string; to : option string }.

Record Alert : Type := { element : LinkWithFallback; props : linkProps }.

(** The component. Its argument is the [location] property, [None] when
    the property is undefined, in which case the default [{}] is used.
    The result [None] stands for a thrown [TypeError]: with an undefined
    [pathname] both tests run on the text of [undefined] and fail, and the
    last branch calls [replace] on [undefined]. *)
Definition NewSettingsWarning (location : option Location) : option Alert :=
  let location := default (∅ : Location) location in
  match location !! "pathname" with
  | None => None
  | Some pathname =>
      let oldLocation := oldLocation pathname in
      let isRouter := isRouter pathname in
      Some {| element := if isRouter then Link else Anchor;
              props := {| href := if isRouter then None else Some oldLocation;
                          to := if isRouter then Some oldLocation else None |} |}
  end.

End SettingsLayout.

(** The component once more, step by step on JavaScript values, to account
    for a [pathname] that is [undefined]: every use of [location.pathname]
    is kept where the source has it. *)
Module Stepwise.
Import RegExp SettingsLayout.

(** What [location.pathname] can be: [undefined] or a string. *)
Inductive value : Type := Undefined | Str (s : string).

(** ToString, which [re.test(v)] applies to its argument. *)
Definition ToString (v : value) : string :=
  match v with
  | Undefined => "undefined"
  | Str s => s
  end.

(** [v.replace(...)]: on a string the method [f] runs; reading the
    property [replace] of [undefined] throws a TypeError, here [None]. *)
Definition callReplace (v : value) (f : string -> string) : option string :=
  match v with
  | Undefined => None
  | Str s => Some (f s)
  end.

Definition NewSettingsWarning (location : option Location) : option Alert :=
  let location := default (∅ : Location) location in
  let pathname :=
    match location !! "pathname" with Some s => Str s | None => Undefined end in
  let isProject := test projectRegex (ToString pathname) in
  let isAccount := test accountRegex (ToString pathname) in
  let oldLocation :=
    if isProject then
      callReplace pathname (RegExp.replace projectRegex "/$1/$2/settings/")
    else if isAccount then
      match
        callReplace pathname (RegExp.replace accountRegex "/account/settings/$1/")
      with
      | Some s1 =>
          let s2 := JSString.replace "details/" EmptyString s1 in
          let s3 := JSString.replace "settings/close-account/" "remove/" s2 in
          let s4 := JSString.replace "account/settings/api/" "api/" s3 in
          Some (JSString.replace "auth-tokens/" EmptyString s4)
      | None => None
      end
    else
      callReplace pathname (RegExp.replace organizationRegex "/organizations/") in
  match oldLocation with
  | None => None
  | Some oldLocation =>
      let isRouter := negb (test djangoRegex (ToString pathname)) in
      Some {| element := if isRouter then Link else Anchor;
              props := {| href := if isRouter then None else Some oldLocation;
                          to := if isRouter then Some oldLocation else None |} |}
  end.

End Stepwise.

(** ** projectGeneralSettings.jsx and teamSettings.jsx *)

(** The organization of the context: [access] is its array of scopes. *)
Record Organization : Type := { access : list string }.

(** The route parameters the two views read. *)
Record Params : Type := { orgId : string; projectId : string; teamId : string }.

(** [new Set(array)] and [set.has(x)]. *)
Definition newSet (l : list string) : gset string := list_to_set l.
Definition has (x : string) (s : gset string) : bool := bool_decide (x ∈ s).

Module ProjectGeneralSettings.

(** The project of the view's state. *)
Record Project : Type := { slug : string; isInternal : bool }.

(** A field of the Project Administration panel: a help text alone, or
    a label with the button that links to the action. *)
Inductive FormField : Type :=
| HelpOnly (help : string)
| ActionLink (label : string) (href : string).

Section Access.
(** [getOrganizationState(organization).getAccess()], of
    [mixins/organizationState], is not part of these sources: the set
    of scopes it returns is a parameter. *)
Variable getAccess : Organization -> gset string.

Definition renderRemoveProject (organization : Organization)
           (params : Params) (project : Project) : FormField :=
  let isProjectAdmin := has "project:admin" (getAccess organization) in
  if negb isProjectAdmin then
    HelpOnly "You do not have the required permission to remove this project."
  else if isInternal project then
    HelpOnly "This project cannot be removed. It is used internally by the Sentry server."
  else
    ActionLink "Remove Project"
      ("/" ++ orgId params ++ "/" ++ projectId params ++ "/settings/remove/").

Definition renderTransferProject (organization : Organization)
           (params : Params) (project : Project) : FormField :=
  let isProjectAdmin := has "project:admin" (getAccess organization) in
  if negb isProjectAdmin then
    HelpOnly "You do not have the required permission to transfer this project."
  else if isInternal project then
    HelpOnly "This project cannot be removed. It is used internally by the Sentry server."
  else
    ActionLink "Transfer Project"
      ("/" ++ orgId params ++ "/" ++ projectId params ++ "/settings/transfer/").
End Access.

Definition isActionLink (f : FormField) : bool :=
  match f with ActionLink _ _ => true | HelpOnly _ => false end.

End ProjectGeneralSettings.

Module TeamSettings.

Record Team : Type := { name : string; slug : string }.

(** The children of the fragment [renderBody] returns: the form with its
    initial data, and the Remove Team box with the address of its
    button. *)
Inductive Child : Type :=
| Form (initialName initialSlug : string)
| RemoveTeam (href : string).

Definition renderBody (organization : Organization) (params : Params)
           (team : Team) : list Child :=
  let access := newSet (access organization) in
  Form (name team) (slug team)
    :: (if has "team:admin" access then
          [RemoveTeam ("/organizations/" ++ orgId params ++ "/teams/"
                         ++ teamId params ++ "/remove/")]
        else []).

Definition isRemoveTeam (c : Child) : bool :=
  match c with RemoveTeam _ => true | Form _ _ => false end.

End TeamSettings.

(** The submit handler of teamSettings.jsx. What it does to the page is
    kept as the list of its calls, in the order of the source. *)
Module TeamSettingsSubmit.

Inductive Effect : Type :=
| AddLoadingMessage (message : string)
| LocationAssign (url : string)
| RouterPush (url : string)
| SetState (loading : bool).

(** [handleSubmitSuccess(resp, model, id, change)]: [id] is the name of the
    saved field and [getValue] stands for [model.getValue], the form
    model's reading of a field, which is not part of these sources. The
    response and the change are not read. *)
Definition handleSubmitSuccess (params : Params) (getValue : string -> string)
           (id : string) : list Effect :=
  if String.eqb id "slug" then
    [ AddLoadingMessage "Slug changed, refreshing page...";
      LocationAssign ("/settings/organization/" ++ orgId params ++ "/teams/"
                        ++ getValue id ++ "/settings/");
      RouterPush ("/settings/organization/" ++ orgId params ++ "/teams/"
                    ++ getValue id ++ "/settings/");
      SetState true ]
  else [].

End TeamSettingsSubmit.

(** ** The shapes of a path and the account rule as the specification
    words them *)

Module Spec.

(** A path of the project shape,
    [/settings/organization/{org}/project/{project}/...], by its parts. *)
Definition projectPath (org proj rest : string) : string :=
  "/settings/organization/" ++ org ++ "/project/" ++ proj ++ "/" ++ rest.

(** A path of the account shape, [/settings/account/{section}/...], by its
    parts. *)
Definition accountPath (section rest : string) : string :=
  "/settings/account/" ++ section ++ "/" ++ rest.

(** "Remove a trailing [details/] segment": the text without its suffix
    [suffix] when it ends with it, and the text itself otherwise. *)
Fixpoint removeTrailing (suffix s : string) : string :=
  if String.eqb s suffix then EmptyString
  else
    match s with
    | EmptyString => EmptyString
    | String c s' => String c (removeTrailing suffix s')
    end.

(** The account rule for [/settings/account/{section}/{rest}], read
    literally. *)
Definition accountLegacy (section rest : string) : string :=
  let s1 := "/account/settings/" ++ section ++ "/" ++ rest in
  let s2 := removeTrailing "details/" s1 in
  let s3 := JSString.replace "settings/close-account/" "remove/" s2 in
  let s4 := JSString.replace "account/settings/api/" "api/" s3 in
  JSString.replace "auth-tokens/" EmptyString s4.

(** [s'] is [s] with the first occurrence of [pat] replaced with [rep]:
    when [pat] does not occur in [s], [s'] is [s]; otherwise [s] is cut at
    the occurrence of [pat] that has the shortest text before it, wherever
    that is, and [pat] alone is exchanged for [rep]; later occurrences
    stay. *)
Definition replacesFirst (pat rep s s' : string) : Prop :=
  (~ JSString.contains pat s /\ s' = s) \/
  (exists before after,
      s = before ++ pat ++ after /\
      (forall b a, s = b ++ pat ++ a -> String.length before <= String.length b) /\
      s' = before ++ rep ++ after).

End Spec.

(** * Properties *)

(** ** Strings *)

Section StringFacts.
Import JSString.

Lemma append_assoc (a b c : string) : (a ++ b) ++ c = a ++ (b ++ c).
Proof. induction a as [|x a IH]; simpl; [reflexivity | now rewrite IH]. Qed.

Lemma append_empty_r (a : string) : a ++ EmptyString = a.
Proof. induction a as [|x a IH]; simpl; [reflexivity | now rewrite IH]. Qed.

Lemma append_length (a b : string) :
  String.length (a ++ b) = String.length a + String.length b.
Proof. induction a as [|x a IH]; simpl; [reflexivity | now rewrite IH]. Qed.

Lemma startsWith_app (l s : string) : startsWith l (l ++ s) = Some s.
Proof.
  induction l as [|a l IH]; simpl; [reflexivity|].
  now rewrite Ascii.eqb_refl.
Qed.

Lemma startsWith_Some (l s r : string) :
  startsWith l s = Some r -> s = l ++ r.
Proof.
  revert s; induction l as [|a l IH]; intros s; simpl.
  - now intros [= ->].
  - destruct s as [|b s]; [discriminate|].
    destruct (Ascii.eqb_spec a b) as [->|]; [|discriminate].
    intros H. now rewrite (IH _ H).
Qed.

Lemma startsWith_None (l s : string) :
  startsWith l s = None -> forall r, s <> l ++ r.
Proof.
  intros H r ->. now rewrite startsWith_app in H.
Qed.

Lemma indexOf_Some (pat s before after : string) :
  indexOf pat s = Some (before, after) -> s = before ++ pat ++ after.
Proof.
  revert before; induction s as [|c s IH]; intros before; simpl.
  - destruct (startsWith pat EmptyString) eqn:E; [|discriminate].
    intros [= <- <-]. now apply startsWith_Some in E.
  - destruct (startsWith pat (String c s)) eqn:E.
    + intros [= <- <-]. now apply startsWith_Some in E.
    + destruct (indexOf pat s) as [[b a]|]; [|discriminate].
      intros [= <- <-]. simpl. now rewrite (IH b).
Qed.

(** The occurrence [indexOf] finds is the leftmost one. *)
Lemma indexOf_leftmost (pat s before after : string) :
  indexOf pat s = Some (before, after) ->
  forall b a, s = b ++ pat ++ a -> String.length before <= String.length b.
Proof.
  revert before; induction s as [|c s IH]; intros before; simpl.
  - destruct (startsWith pat EmptyString); [|discriminate].
    intros [= <- <-] b a _. simpl. lia.
  - destruct (startsWith pat (String c s)) eqn:E.
    + intros [= <- <-] b a _. simpl. lia.
    + destruct (indexOf pat s) as [[b0 a0]|] eqn:E0; [|discriminate].
      intros [= <- <-] b a Hs. destruct b as [|x b]; simpl in Hs.
      * exfalso. now apply (startsWith_None _ _ E a).
      * injection Hs as -> ->. simpl.
        specialize (IH b0 eq_refl b a eq_refl). lia.
Qed.

Lemma indexOf_None (pat s : string) :
  indexOf pat s = None <-> ~ contains pat s.
Proof.
  split.
  - induction s as [|c s IH]; simpl.
    + destruct (startsWith pat EmptyString) eqn:E; [discriminate|].
      intros _ (pre & post & H). destruct pre; simpl in H.
      * now apply (startsWith_None _ _ E post).
      * discriminate.
    + destruct (startsWith pat (String c s)) eqn:E; [discriminate|].
      destruct (indexOf pat s) as [[b a]|]; [discriminate|].
      intros _ (pre & post & H). destruct pre as [|x pre]; simpl in H.
      * now apply (startsWith_None _ _ E post).
      * injection H as -> ->. apply IH; [reflexivity|]. now exists pre, post.
  - intros H. destruct (indexOf pat s) as [[b a]|] eqn:E; [|reflexivity].
    exfalso. apply H. exists b, a. now apply indexOf_Some.
Qed.

(** [replace] with a string pattern that does not occur changes
    nothing. *)
Lemma replace_absent (pat template s : string) :
  ~ contains pat s -> replace pat template s = s.
Proof.
  intros H. unfold replace. apply indexOf_None in H. now rewrite H.
Qed.

(** [replace] with a string pattern rewrites the leftmost occurrence and
    leaves the text on both sides of it as it is. *)
Lemma replace_first (pat template s : string) :
  contains pat s ->
  exists before after,
    s = before ++ pat ++ after /\
    (forall b a, s = b ++ pat ++ a -> String.length before <= String.length b) /\
    replace pat template s = before ++ getSubstitution [] template ++ after.
Proof.
  intros H. unfold replace.
  destruct (indexOf pat s) as [[b a]|] eqn:E.
  - exists b, a. split; [now apply indexOf_Some|].
    split; [now apply (indexOf_leftmost _ _ _ _ E) | reflexivity].
  - now apply indexOf_None in E.
Qed.

Lemma noSlash_app (a b : string) :
  noSlash (a ++ b) = noSlash a && noSlash b.
Proof.
  induction a as [|x a IH]; simpl; [reflexivity|].
  now rewrite IH, andb_assoc.
Qed.

End StringFacts.

(** Appends are associated to the right and literal prefixes are
    computed. *)
Ltac string_norm := repeat (progress (rewrite ?append_assoc; simpl)).

(** ** The matcher *)

Section MatcherFacts.
Import JSString RegExp.

(** Whatever [[^\/]+] captures is a path segment, and the rest of the
    pattern ran on what follows it. *)
Lemma seg_loop_inv {R : Type} (k : string -> string -> option R) (s : string) (r : R) :
  seg_loop k s = Some r ->
  exists seg rest, s = seg ++ rest /\ segment seg /\ k seg rest = Some r.
Proof.
  revert k; induction s as [|c s IH]; intros k; simpl; [discriminate|].
  destruct (Ascii.eqb c "/") eqn:Ec; [discriminate|].
  destruct (seg_loop (fun cap rest => k (String c cap) rest) s) as [r'|] eqn:E.
  - intros [= ->]. destruct (IH _ E) as (seg & rest & -> & [_ Hns] & Hk).
    exists (String c seg), rest. repeat split; [discriminate | | exact Hk].
    simpl. now rewrite Ec.
  - intros Hk. exists (String c EmptyString), s.
    repeat split; [discriminate | | exact Hk].
    simpl. now rewrite Ec.
Qed.

(** A segment followed by a slash is captured whole as soon as the rest
    of the pattern accepts what follows. *)
Lemma seg_loop_segment {R : Type} (k : string -> string -> option R)
      (seg rest : string) (r : R) :
  segment seg ->
  k seg (String "/" rest) = Some r ->
  seg_loop k (seg ++ String "/" rest) = Some r.
Proof.
  intros [Hne Hns]. revert k Hne Hns.
  induction seg as [|c seg IH]; intros k Hne Hns Hk; [now destruct Hne|].
  simpl in Hns. apply andb_prop in Hns as [Hc Hns].
  apply negb_true_iff in Hc. simpl. rewrite Hc.
  destruct seg as [|d seg].
  - simpl. now rewrite Hk.
  - rewrite (IH (fun cap rest => k (String c cap) rest)); auto; discriminate.
Qed.

End MatcherFacts.

(** ** The three shapes of a path *)

Section Shapes.
Import JSString RegExp SettingsLayout Spec.

Lemma run_projectPath (org proj rest : string) :
  segment org -> segment proj ->
  run (body projectRegex) [] (projectPath org proj rest)
  = Some ([org; proj], rest).
Proof.
  intros Horg Hproj. unfold projectPath. simpl.
  apply seg_loop_segment; [exact Horg|]. simpl.
  apply seg_loop_segment; [exact Hproj|]. reflexivity.
Qed.

Lemma run_accountPath (section rest : string) :
  segment section ->
  run (body accountRegex) [] (accountPath section rest)
  = Some ([section], rest).
Proof.
  intros Hsec. unfold accountPath. simpl.
  apply seg_loop_segment; [exact Hsec|]. reflexivity.
Qed.

Lemma run_Lit_inv (l : string) (r : list tok) (caps : list string)
      (s : string) (res : list string * string) :
  run (Lit l :: r) caps s = Some res ->
  exists rest, s = l ++ rest /\ run r caps rest = Some res.
Proof.
  simpl. destruct (startsWith l s) as [rest|] eqn:E; [|discriminate].
  intros H. exists rest. split; [now apply startsWith_Some | exact H].
Qed.

Lemma run_Seg_inv (r : list tok) (caps : list string)
      (s : string) (res : list string * string) :
  run (Seg :: r) caps s = Some res ->
  exists seg rest,
    s = seg ++ rest /\ segment seg /\ run r (caps ++ [seg]) rest = Some res.
Proof. simpl. apply seg_loop_inv. Qed.

Lemma test_projectRegex_inv (p : string) :
  test projectRegex p = true ->
  exists org proj rest,
    segment org /\ segment proj /\ p = projectPath org proj rest.
Proof.
  unfold test, exec. cbn [anchored body projectRegex].
  destruct (run _ [] p) as [res|] eqn:E; [intros _|discriminate].
  apply run_Lit_inv in E as (s1 & -> & E).
  apply run_Seg_inv in E as (org & s2 & -> & Horg & E).
  apply run_Lit_inv in E as (s3 & -> & E).
  apply run_Seg_inv in E as (proj & s4 & -> & Hproj & E).
  apply run_Lit_inv in E as (rest & -> & _).
  now exists org, proj, rest.
Qed.

Lemma test_accountRegex_inv (p : string) :
  test accountRegex p = true ->
  exists section rest, segment section /\ p = accountPath section rest.
Proof.
  unfold test, exec. cbn [anchored body accountRegex].
  destruct (run _ [] p) as [res|] eqn:E; [intros _|discriminate].
  apply run_Lit_inv in E as (s1 & -> & E).
  apply run_Seg_inv in E as (section & s2 & -> & Hsec & E).
  apply run_Lit_inv in E as (rest & -> & _).
  now exists section, rest.
Qed.

Lemma test_projectPath (org proj rest : string) :
  segment org -> segment proj ->
  test projectRegex (projectPath org proj rest) = true.
Proof.
  intros Horg Hproj. unfold test, exec. cbn [anchored projectRegex].
  fold projectRegex. now rewrite run_projectPath.
Qed.

Lemma test_accountPath (section rest : string) :
  segment section -> test accountRegex (accountPath section rest) = true.
Proof.
  intros Hsec. unfold test, exec. cbn [anchored accountRegex].
  fold accountRegex. now rewrite run_accountPath.
Qed.

(** An account path is never a project path. *)
Lemma test_projectRegex_accountPath (section rest : string) :
  test projectRegex (accountPath section rest) = false.
Proof. reflexivity. Qed.

Lemma replace_projectPath (org proj rest : string) :
  segment org -> segment proj ->
  RegExp.replace projectRegex "/$1/$2/settings/" (projectPath org proj rest)
  = "/" ++ org ++ "/" ++ proj ++ "/settings/" ++ rest.
Proof.
  intros Horg Hproj. unfold RegExp.replace, exec. cbn [anchored projectRegex].
  fold projectRegex. rewrite run_projectPath by assumption.
  simpl. now string_norm.
Qed.

Lemma accountRewrite_accountPath (section rest : string) :
  segment section ->
  accountRewrite (accountPath section rest)
  = "/account/settings/" ++ section ++ "/" ++ rest.
Proof.
  intros Hsec. unfold accountRewrite, RegExp.replace, exec.
  cbn [anchored accountRegex]. fold accountRegex.
  rewrite run_accountPath by assumption.
  simpl. now string_norm.
Qed.

End Shapes.

(** ** The routing test *)

Section Routing.
Import JSString RegExp SettingsLayout.

Lemma search_Some (r : list tok) (s : string) :
  (exists res, search r s = Some res) <->
  (exists pre suf res, s = pre ++ suf /\ run r [] suf = Some res).
Proof.
  split.
  - induction s as [|c s IH]; simpl; intros [res H].
    + destruct (run r [] EmptyString) as [[caps after]|] eqn:E; [|discriminate].
      exists EmptyString, EmptyString. eauto.
    + destruct (run r [] (String c s)) as [[caps after]|] eqn:E.
      * exists EmptyString, (String c s). eauto.
      * destruct (search r s) as [[[b caps] a]|] eqn:Es; [|discriminate].
        destruct IH as (pre & suf & res' & -> & Hrun); [eauto|].
        exists (String c pre), suf, res'. split; [reflexivity | exact Hrun].
  - intros (pre & suf & res & -> & Hrun).
    induction pre as [|c pre IH]; simpl.
    + destruct res. destruct suf; simpl; rewrite Hrun; eauto.
    + destruct (run r [] (String c (pre ++ suf))) as [[caps after]|]; [eauto|].
      destruct IH as [[[b caps] a] ->]. eauto.
Qed.

(** Where [\/(auth|account)\/] matches at the start of a text. *)
Lemma run_djangoRegex (s : string) :
  (exists res, run (body djangoRegex) [] s = Some res) <->
  (exists post, s = "/auth/" ++ post) \/ (exists post, s = "/account/" ++ post).
Proof.
  split.
  - intros [res H].
    apply run_Lit_inv in H as (s1 & -> & H). cbn [run alt_loop] in H.
    destruct (startsWith "auth" s1) as [s2|] eqn:E1.
    + apply startsWith_Some in E1 as ->.
      destruct (startsWith "/" s2) as [s3|] eqn:E2.
      * apply startsWith_Some in E2 as ->. left. now exists s3.
      * simpl in H. discriminate.
    + destruct (startsWith "account" s1) as [s2|] eqn:E3; [|discriminate].
      apply startsWith_Some in E3 as ->.
      destruct (startsWith "/" s2) as [s3|] eqn:E2; [|discriminate].
      apply startsWith_Some in E2 as ->. right. now exists s3.
  - intros [[post ->]|[post ->]]; simpl; eauto.
Qed.

Lemma test_djangoRegex (p : string) :
  test djangoRegex p = true <-> contains "/auth/" p \/ contains "/account/" p.
Proof.
  unfold test, exec. cbn [anchored djangoRegex]. fold djangoRegex.
  split.
  - destruct (search (body djangoRegex) p) as [res|] eqn:E; [intros _|discriminate].
    destruct (proj1 (search_Some _ _) (ex_intro _ res E))
      as (pre & suf & res' & -> & Hrun).
    destruct (proj1 (run_djangoRegex suf) (ex_intro _ res' Hrun))
      as [[post ->]|[post ->]]; [left|right]; now exists pre, post.
  - intros H.
    assert (exists res, search (body djangoRegex) p = Some res) as [res ->];
      [|reflexivity].
    apply search_Some.
    destruct H as [(pre & post & ->)|(pre & post & ->)].
    + destruct (proj2 (run_djangoRegex ("/auth/" ++ post))) as [res Hres]; eauto.
    + destruct (proj2 (run_djangoRegex ("/account/" ++ post))) as [res Hres]; eauto.
Qed.

End Routing.

(** ** The legacy path *)

Section LegacyPath.
Import JSString RegExp SettingsLayout Spec.

Lemma oldLocation_project (p : string) :
  test projectRegex p = true ->
  oldLocation p = RegExp.replace projectRegex "/$1/$2/settings/" p.
Proof. intros H. unfold oldLocation. cbv zeta. now rewrite H. Qed.

Lemma oldLocation_account (p : string) :
  test projectRegex p = false -> test accountRegex p = true ->
  oldLocation p =
  JSString.replace "auth-tokens/" EmptyString
    (JSString.replace "account/settings/api/" "api/"
       (JSString.replace "settings/close-account/" "remove/"
          (JSString.replace "details/" EmptyString (accountRewrite p)))).
Proof. intros Hp Ha. unfold oldLocation. cbv zeta. now rewrite Hp, Ha. Qed.

Lemma oldLocation_default (p : string) :
  test projectRegex p = false -> test accountRegex p = false ->
  oldLocation p = RegExp.replace organizationRegex "/organizations/" p.
Proof. intros Hp Ha. unfold oldLocation. cbv zeta. now rewrite Hp, Ha. Qed.

Lemma segment_intro (s : string) :
  s <> EmptyString -> noSlash s = true -> segment s.
Proof. now split. Qed.

Lemma append_inj_length (a1 a2 b1 b2 : string) :
  String.length a1 = String.length a2 ->
  a1 ++ b1 = a2 ++ b2 -> a1 = a2 /\ b1 = b2.
Proof.
  revert a2; induction a1 as [|c a1 IH]; intros [|d a2] Hlen H;
    simpl in *; try discriminate.
  - now split.
  - injection Hlen as Hlen. injection H as -> H.
    destruct (IH a2 Hlen H) as [-> ->]. now split.
Qed.

(** [replacesFirst] leaves one result only. *)
Lemma replacesFirst_unique (pat rep s r1 r2 : string) :
  replacesFirst pat rep s r1 -> replacesFirst pat rep s r2 -> r1 = r2.
Proof.
  intros [[H1 ->]|(b1 & a1 & Hs1 & Hmin1 & ->)] [[H2 ->]|(b2 & a2 & Hs2 & Hmin2 & ->)].
  - reflexivity.
  - destruct H1. now exists b2, a2.
  - destruct H2. now exists b1, a1.
  - assert (String.length b1 = String.length b2) as Hlen.
    { pose proof (Hmin1 b2 a2 Hs2). pose proof (Hmin2 b1 a1 Hs1). lia. }
    rewrite Hs1 in Hs2.
    destruct (append_inj_length _ _ _ _ Hlen Hs2) as [-> H].
    destruct (append_inj_length pat pat a1 a2 eq_refl H) as [_ ->].
    reflexivity.
Qed.

(** [replace] with a string pattern and a template without a dollar sign
    is the replacement of the first occurrence. *)
Lemma replace_replacesFirst (pat rep s : string) :
  getSubstitution [] rep = rep ->
  replacesFirst pat rep s (JSString.replace pat rep s).
Proof.
  intros Hrep. unfold replacesFirst, JSString.replace.
  destruct (indexOf pat s) as [[before after]|] eqn:E.
  - right. exists before, after. rewrite Hrep.
    split; [now apply indexOf_Some|].
    split; [now apply (indexOf_leftmost _ _ _ _ E) | reflexivity].
  - left. split; [now apply indexOf_None | reflexivity].
Qed.

(** C1, as the code has it: for the input path
    [/settings/account/close-account/] the legacy path is
    [/account/remove/], and the component renders it as the [href] of a
    plain anchor. *)
Theorem C1_close_account_legacy_path :
  oldLocation "/settings/account/close-account/" = "/account/remove/" /\
  NewSettingsWarning (Some {[ "pathname" := "/settings/account/close-account/" ]})
  = Some {| element := Anchor;
            props := {| href := Some "/account/remove/"; to := None |} |}.
Proof. split; reflexivity. Qed.

(** C1, as the specification states it, fails: the legacy path of
    [/settings/account/close-account/] is not
    [/account/settings/remove/]. *)
Lemma C1_close_account_not_settings_remove :
  oldLocation "/settings/account/close-account/" <> "/account/settings/remove/".
Proof. intros H. vm_compute in H. discriminate H. Qed.

(** C2: for every path [/settings/organization/ORG/project/PROJ/rest] whose
    ORG and PROJ are non-empty and without a slash, the legacy path is
    [/ORG/PROJ/settings/rest]. *)
Theorem C2_project_path_rewritten (org proj rest : string) :
  segment org -> segment proj ->
  oldLocation ("/settings/organization/" ++ org ++ "/project/" ++ proj ++ "/" ++ rest)
  = "/" ++ org ++ "/" ++ proj ++ "/settings/" ++ rest.
Proof.
  intros Horg Hproj. fold (projectPath org proj rest).
  rewrite oldLocation_project by now apply test_projectPath.
  now apply replace_projectPath.
Qed.

Lemma C2_project_path_rewritten_witness :
  oldLocation "/settings/organization/acme/project/web/keys/"
  = "/acme/web/settings/keys/".
Proof.
  apply (C2_project_path_rewritten "acme" "web" "keys/");
    apply segment_intro; [discriminate | reflexivity | discriminate | reflexivity].
Defined.

(** C3, as the code has it: for every account path
    [/settings/account/{section}/rest] the account pattern matches and the
    project pattern does not, and the legacy path is obtained from
    [/account/settings/{section}/rest] by four replacements in this order,
    each acting on the first occurrence of its text and on nothing else:
    [details/] is removed wherever its first occurrence is, trailing or
    not; [settings/close-account/] is replaced with [remove/];
    [account/settings/api/] is replaced with [api/]; [auth-tokens/] is
    removed. *)
Theorem C3_account_path_replacements (section rest : string) :
  segment section ->
  test accountRegex ("/settings/account/" ++ section ++ "/" ++ rest) = true /\
  test projectRegex ("/settings/account/" ++ section ++ "/" ++ rest) = false /\
  exists s2 s3 s4,
    replacesFirst "details/" EmptyString
      ("/account/settings/" ++ section ++ "/" ++ rest) s2 /\
    replacesFirst "settings/close-account/" "remove/" s2 s3 /\
    replacesFirst "account/settings/api/" "api/" s3 s4 /\
    replacesFirst "auth-tokens/" EmptyString s4
      (oldLocation ("/settings/account/" ++ section ++ "/" ++ rest)).
Proof.
  intros Hsec. fold (accountPath section rest).
  pose proof (test_accountPath section rest Hsec) as Ha.
  pose proof (test_projectRegex_accountPath section rest) as Hp.
  split; [exact Ha|]. split; [exact Hp|].
  rewrite (oldLocation_account _ Hp Ha).
  rewrite accountRewrite_accountPath by assumption.
  eexists _, _, _.
  repeat split; apply replace_replacesFirst; reflexivity.
Qed.

Lemma C3_account_path_replacements_witness :
  test accountRegex ("/settings/account/" ++ "details" ++ "/" ++ "x/details/") = true /\
  test projectRegex ("/settings/account/" ++ "details" ++ "/" ++ "x/details/") = false /\
  exists s2 s3 s4,
    replacesFirst "details/" EmptyString
      ("/account/settings/" ++ "details" ++ "/" ++ "x/details/") s2 /\
    replacesFirst "settings/close-account/" "remove/" s2 s3 /\
    replacesFirst "account/settings/api/" "api/" s3 s4 /\
    replacesFirst "auth-tokens/" EmptyString s4
      (oldLocation ("/settings/account/" ++ "details" ++ "/" ++ "x/details/")).
Proof.
  apply (C3_account_path_replacements "details" "x/details/").
  apply segment_intro; [discriminate | reflexivity].
Defined.

(** C3, as the specification states it, fails: with the first replacement
    read as the removal of a trailing [details/], the account path
    [/settings/account/details/x/] would go to [/account/settings/details/x/],
    and the code sends it to [/account/settings/x/]. *)
Lemma C3_details_removed_anywhere :
  test accountRegex (accountPath "details" "x/") = true /\
  test projectRegex (accountPath "details" "x/") = false /\
  Spec.accountLegacy "details" "x/" = "/account/settings/details/x/" /\
  oldLocation (accountPath "details" "x/") = "/account/settings/x/" /\
  oldLocation (accountPath "details" "x/") <> Spec.accountLegacy "details" "x/".
Proof.
  repeat split; try reflexivity.
  intros H. vm_compute in H. discriminate H.
Qed.

End LegacyPath.

(** ** The component *)

Section Component.
Import JSString RegExp SettingsLayout Spec.

Lemma NewSettingsWarning_pathname (l : Location) (p : string) :
  l !! "pathname" = Some p ->
  NewSettingsWarning (Some l)
  = Some {| element := if isRouter p then Link else Anchor;
            props := {| href := if isRouter p then None else Some (oldLocation p);
                        to := if isRouter p then Some (oldLocation p) else None |} |}.
Proof. intros H. unfold NewSettingsWarning. simpl. now rewrite H. Qed.

Lemma isRouter_false (p : string) :
  isRouter p = false <-> contains "/auth/" p \/ contains "/account/" p.
Proof.
  unfold isRouter. rewrite negb_false_iff. apply test_djangoRegex.
Qed.

(** C4: for every path, the link to the old settings page is a plain
    anchor (with the legacy path as its [href]) exactly when the path
    contains [/auth/] or [/account/], and it is the router's [Link] (with
    the legacy path as its [to]) exactly when it contains neither. *)
Theorem C4_plain_link_iff_auth_or_account (l : Location) (p : string) :
  let alert := NewSettingsWarning (Some (<["pathname" := p]> l)) in
  (isRouter p = false <-> contains "/auth/" p \/ contains "/account/" p) /\
  (alert = Some {| element := Anchor;
                   props := {| href := Some (oldLocation p); to := None |} |}
   <-> contains "/auth/" p \/ contains "/account/" p) /\
  (alert = Some {| element := Link;
                   props := {| href := None; to := Some (oldLocation p) |} |}
   <-> ~ (contains "/auth/" p \/ contains "/account/" p)).
Proof.
  cbv zeta.
  rewrite (NewSettingsWarning_pathname _ p) by apply lookup_insert_eq.
  rewrite <- isRouter_false.
  destruct (isRouter p); repeat split; congruence.
Qed.

(** C5: a path that matches neither the project pattern nor the account
    pattern has its leading [/settings/organization/] replaced with
    [/organizations/], and is left as it is when it does not start with
    [/settings/organization/]. *)
Theorem C5_default_prefix_replaced (p : string) :
  test projectRegex p = false -> test accountRegex p = false ->
  (forall rest, p = "/settings/organization/" ++ rest ->
                oldLocation p = "/organizations/" ++ rest) /\
  ((forall rest, p <> "/settings/organization/" ++ rest) -> oldLocation p = p).
Proof.
  intros Hp Ha. rewrite (oldLocation_default p Hp Ha).
  unfold RegExp.replace, exec. cbn [anchored organizationRegex body run].
  split.
  - intros rest ->. now rewrite startsWith_app.
  - intros H. destruct (startsWith _ p) as [rest|] eqn:E; [|reflexivity].
    apply startsWith_Some in E. now destruct (H rest).
Qed.

Lemma C5_default_prefix_replaced_witness :
  oldLocation "/settings/organization/acme/teams/" = "/organizations/acme/teams/".
Proof.
  apply (proj1 (C5_default_prefix_replaced "/settings/organization/acme/teams/"
                  ltac:(reflexivity) ltac:(reflexivity)) "acme/teams/").
  reflexivity.
Defined.

(** C6: the input path [/settings/account/api/] is first rewritten to
    [/account/settings/api/]; replacing [account/settings/api/] with [api/]
    in it gives [/api/], which is the legacy path. *)
Theorem C6_account_api_legacy_path :
  accountRewrite "/settings/account/api/" = "/account/settings/api/" /\
  JSString.replace "account/settings/api/" "api/" "/account/settings/api/" = "/api/" /\
  oldLocation "/settings/account/api/" = "/api/".
Proof. repeat split; reflexivity. Qed.

(** C7: the first matching rule wins. Every path that matches the project
    pattern is [/settings/organization/ORG/project/PROJ/] followed by some
    [rest], and its legacy path is [/ORG/PROJ/settings/] followed by the
    same [rest], whatever [rest] contains: none of the replacements of the
    account rule is applied to it. *)
Theorem C7_project_rule_wins (p : string) :
  test projectRegex p = true ->
  exists org proj rest,
    segment org /\ segment proj /\
    p = "/settings/organization/" ++ org ++ "/project/" ++ proj ++ "/" ++ rest /\
    oldLocation p = "/" ++ org ++ "/" ++ proj ++ "/settings/" ++ rest.
Proof.
  intros Hp.
  destruct (test_projectRegex_inv p Hp) as (org & proj & rest & Horg & Hproj & ->).
  exists org, proj, rest. repeat split; try apply Horg; try apply Hproj.
  rewrite (oldLocation_project _ Hp). now apply replace_projectPath.
Qed.

Lemma C7_project_rule_wins_witness :
  exists org proj rest,
    segment org /\ segment proj /\
    "/settings/organization/acme/project/web/details/auth-tokens/settings/close-account/"
    = "/settings/organization/" ++ org ++ "/project/" ++ proj ++ "/" ++ rest /\
    oldLocation
      "/settings/organization/acme/project/web/details/auth-tokens/settings/close-account/"
    = "/" ++ org ++ "/" ++ proj ++ "/settings/" ++ rest.
Proof.
  apply (C7_project_rule_wins
           "/settings/organization/acme/project/web/details/auth-tokens/settings/close-account/").
  reflexivity.
Defined.

(** C8: the translator is total on path strings. For every location whose
    [pathname] is a string the component returns, without throwing, a legacy
    path and a routing flag: the flag chooses the element, and the legacy
    path is the [to] of the router's link or the [href] of the anchor. *)
Theorem C8_total_on_strings (l : Location) (p : string) :
  l !! "pathname" = Some p ->
  exists (legacy : string) (router : bool),
    NewSettingsWarning (Some l)
    = Some {| element := if router then Link else Anchor;
              props := {| href := if router then None else Some legacy;
                          to := if router then Some legacy else None |} |}.
Proof.
  intros H. exists (oldLocation p), (isRouter p).
  now apply NewSettingsWarning_pathname.
Qed.

Lemma C8_total_on_strings_witness :
  exists (legacy : string) (router : bool),
    NewSettingsWarning (Some {[ "pathname" := "not a settings path" ]})
    = Some {| element := if router then Link else Anchor;
              props := {| href := if router then None else Some legacy;
                          to := if router then Some legacy else None |} |}.
Proof.
  apply (C8_total_on_strings {[ "pathname" := "not a settings path" ]}
           "not a settings path").
  reflexivity.
Defined.

End Component.

(** ** The danger zone *)

Section DangerZone.
Import ProjectGeneralSettings TeamSettings.

Lemma has_true (x : string) (s : gset string) : has x s = true <-> x ∈ s.
Proof. unfold has. apply bool_decide_eq_true. Qed.

Lemma has_newSet (x : string) (l : list string) :
  has x (newSet l) = true <-> x ∈ l.
Proof. rewrite has_true. unfold newSet. apply elem_of_list_to_set. Qed.

Lemma renderRemoveProject_link (getAccess : Organization -> gset string)
      (organization : Organization) (params : Params) (project : Project) :
  renderRemoveProject getAccess organization params project
  = ActionLink "Remove Project"
      ("/" ++ orgId params ++ "/" ++ projectId params ++ "/settings/remove/")
  <-> "project:admin" ∈ getAccess organization /\ isInternal project = false.
Proof.
  unfold renderRemoveProject. rewrite <- has_true.
  destruct (has "project:admin" (getAccess organization));
    destruct (isInternal project); simpl; split;
    solve [reflexivity | discriminate | now intros [? ?] | now split].
Qed.

Lemma renderTransferProject_link (getAccess : Organization -> gset string)
      (organization : Organization) (params : Params) (project : Project) :
  renderTransferProject getAccess organization params project
  = ActionLink "Transfer Project"
      ("/" ++ orgId params ++ "/" ++ projectId params ++ "/settings/transfer/")
  <-> "project:admin" ∈ getAccess organization /\ isInternal project = false.
Proof.
  unfold renderTransferProject. rewrite <- has_true.
  destruct (has "project:admin" (getAccess organization));
    destruct (isInternal project); simpl; split;
    solve [reflexivity | discriminate | now intros [? ?] | now split].
Qed.

(** A field of the panel is either the link of its action or a help text. *)
Lemma render_project_field_help (getAccess : Organization -> gset string)
      (organization : Organization) (params : Params) (project : Project) :
  ~ ("project:admin" ∈ getAccess organization /\ isInternal project = false) ->
  (exists help,
      renderRemoveProject getAccess organization params project = HelpOnly help) /\
  (exists help,
      renderTransferProject getAccess organization params project = HelpOnly help).
Proof.
  unfold renderRemoveProject, renderTransferProject. rewrite <- has_true.
  destruct (has "project:admin" (getAccess organization));
    destruct (isInternal project); simpl; intros H; try solve [split; eauto].
  destruct H. now split.
Qed.

Lemma renderBody_removeTeam (organization : Organization) (params : Params)
      (team : Team) :
  (exists href, RemoveTeam href ∈ TeamSettings.renderBody organization params team)
  <-> "team:admin" ∈ access organization.
Proof.
  unfold TeamSettings.renderBody. rewrite <- has_newSet.
  destruct (has "team:admin" (newSet (access organization))); split.
  - reflexivity.
  - intros _. eexists. apply elem_of_cons. right. apply elem_of_cons. now left.
  - intros [href H]. apply elem_of_cons in H as [H|H]; [discriminate H|].
    now apply elem_of_nil in H.
  - discriminate.
Qed.

(** C9: the danger-zone actions are gated by the access scopes. The Remove
    Project and the Transfer Project links are rendered exactly when the
    access of the organization has [project:admin] and the project is not
    internal, and a help text without a link is rendered otherwise; the
    Remove Team box is rendered exactly when the [access] of the
    organization has [team:admin]. *)
Theorem C9_danger_zone_gated (getAccess : Organization -> gset string)
        (organization : Organization) (params : Params)
        (project : Project) (team : Team) :
  let allowed :=
    "project:admin" ∈ getAccess organization /\ isInternal project = false in
  let remove := renderRemoveProject getAccess organization params project in
  let transfer := renderTransferProject getAccess organization params project in
  (remove = ActionLink "Remove Project"
              ("/" ++ orgId params ++ "/" ++ projectId params ++ "/settings/remove/")
   <-> allowed) /\
  (transfer = ActionLink "Transfer Project"
                ("/" ++ orgId params ++ "/" ++ projectId params ++ "/settings/transfer/")
   <-> allowed) /\
  (isActionLink remove = true <-> allowed) /\
  (isActionLink transfer = true <-> allowed) /\
  (~ allowed ->
   (exists help, remove = HelpOnly help) /\ (exists help, transfer = HelpOnly help)) /\
  ((exists href, RemoveTeam href ∈ TeamSettings.renderBody organization params team)
   <-> "team:admin" ∈ access organization).
Proof.
  cbv zeta.
  split; [apply renderRemoveProject_link|].
  split; [apply renderTransferProject_link|].
  split.
  { rewrite <- (renderRemoveProject_link getAccess organization params project).
    unfold renderRemoveProject.
    destruct (has "project:admin" (getAccess organization));
      destruct (isInternal project); simpl;
      split; solve [reflexivity | discriminate]. }
  split.
  { rewrite <- (renderTransferProject_link getAccess organization params project).
    unfold renderTransferProject.
    destruct (has "project:admin" (getAccess organization));
      destruct (isInternal project); simpl;
      split; solve [reflexivity | discriminate]. }
  split; [apply render_project_field_help | apply renderBody_removeTeam].
Qed.

End DangerZone.

(** ** More on the legacy path: edges and invariants *)

Section LegacyPathEdges.
Import JSString RegExp SettingsLayout Spec.

(** A text without a slash followed by a slash splits in one way only. *)
Lemma segment_slash_unique (a b x y : string) :
  noSlash a = true -> noSlash b = true ->
  a ++ String "/" x = b ++ String "/" y -> a = b /\ x = y.
Proof.
  revert b; induction a as [|c a IH]; intros [|d b] Ha Hb H; simpl in *.
  - now injection H as ->.
  - injection H as <- _. discriminate Hb.
  - injection H as -> _. discriminate Ha.
  - injection H as -> H.
    apply andb_prop in Ha as [_ Ha]. apply andb_prop in Hb as [_ Hb].
    destruct (IH b Ha Hb H) as [-> ->]. now split.
Qed.

Lemma noSlash_slash (a x : string) : noSlash (a ++ String "/" x) = false.
Proof. rewrite noSlash_app. simpl. apply andb_false_r. Qed.

(** A string pattern that starts with another character than the slash
    is not found at a leading slash. *)
Lemma replace_after_slash (c : ascii) (pat template s : string) :
  Ascii.eqb c "/" = false ->
  JSString.replace (String c pat) template (String "/" s)
  = String "/" (JSString.replace (String c pat) template s).
Proof.
  intros Hc. unfold JSString.replace. cbn [indexOf startsWith]. rewrite Hc.
  destruct (indexOf (String c pat) s) as [[before after]|]; reflexivity.
Qed.

Lemma test_anchored_Lit_None (l : string) (r : list tok) (p : string) :
  startsWith l p = None -> test (RegExp.mk true (Lit l :: r)) p = false.
Proof.
  intros H. unfold test, exec. cbn [anchored body run]. now rewrite H.
Qed.

(** The legacy path of an absolute path is absolute: a path that starts
    with a slash is sent to a path that starts with a slash, in each of
    the three branches. *)
Theorem oldLocation_absolute (s : string) :
  exists s', oldLocation (String "/" s) = String "/" s'.
Proof.
  destruct (test projectRegex (String "/" s)) eqn:Hp.
  - rewrite (oldLocation_project _ Hp).
    destruct (test_projectRegex_inv _ Hp) as (org & proj & rest & Ho & Hpr & ->).
    rewrite replace_projectPath by assumption. simpl. eauto.
  - destruct (test accountRegex (String "/" s)) eqn:Ha.
    + rewrite (oldLocation_account _ Hp Ha).
      destruct (test_accountRegex_inv _ Ha) as (section & rest & Hs & ->).
      rewrite accountRewrite_accountPath by assumption. simpl.
      rewrite !replace_after_slash by reflexivity. eauto.
    + rewrite (oldLocation_default _ Hp Ha).
      unfold RegExp.replace, exec. cbn [anchored organizationRegex body run].
      destruct (startsWith "/settings/organization/" (String "/" s)); simpl; eauto.
Qed.

(** A path on which the account pattern matches is never given to the
    router: the component renders a plain anchor, with the legacy path as
    its [href]. *)
Theorem account_path_plain_anchor (l : Location) (p : string) :
  test accountRegex p = true ->
  NewSettingsWarning (Some (<["pathname" := p]> l))
  = Some {| element := Anchor;
            props := {| href := Some (oldLocation p); to := None |} |}.
Proof.
  intros Ha. rewrite (NewSettingsWarning_pathname _ p) by apply lookup_insert_eq.
  assert (isRouter p = false) as ->; [|reflexivity].
  apply isRouter_false. right.
  destruct (test_accountRegex_inv _ Ha) as (section & rest & _ & ->).
  exists "/settings", (section ++ "/" ++ rest). reflexivity.
Qed.

Lemma account_path_plain_anchor_witness :
  NewSettingsWarning (Some (<["pathname" := "/settings/account/emails/"]> ∅))
  = Some {| element := Anchor;
            props := {| href := Some (oldLocation "/settings/account/emails/");
                        to := None |} |}.
Proof.
  apply (account_path_plain_anchor ∅ "/settings/account/emails/"). reflexivity.
Defined.

(** A path that starts neither with [/settings/organization/] nor with
    [/settings/account/] is returned as it is. *)
Theorem oldLocation_other_paths_unchanged (p : string) :
  startsWith "/settings/organization/" p = None ->
  startsWith "/settings/account/" p = None ->
  oldLocation p = p.
Proof.
  intros Ho Ha.
  rewrite oldLocation_default.
  - unfold RegExp.replace, exec. cbn [anchored organizationRegex body run].
    now rewrite Ho.
  - now apply test_anchored_Lit_None.
  - now apply test_anchored_Lit_None.
Qed.

Lemma oldLocation_other_paths_unchanged_witness :
  oldLocation "/organizations/acme/settings/organization/"
  = "/organizations/acme/settings/organization/".
Proof.
  apply (oldLocation_other_paths_unchanged
           "/organizations/acme/settings/organization/"); reflexivity.
Defined.

(** The project pattern asks for a slash after the project: a path that
    ends with the project segment, without the slash, is not taken as a
    project path and goes through the last branch. *)
Theorem project_without_final_slash (org proj : string) :
  segment org -> segment proj ->
  test projectRegex ("/settings/organization/" ++ org ++ "/project/" ++ proj) = false /\
  oldLocation ("/settings/organization/" ++ org ++ "/project/" ++ proj)
  = "/organizations/" ++ org ++ "/project/" ++ proj.
Proof.
  intros [_ Horg] [_ Hproj].
  assert (test projectRegex
            ("/settings/organization/" ++ org ++ "/project/" ++ proj) = false) as Hp.
  { destruct (test projectRegex _) eqn:E; [exfalso|reflexivity].
    destruct (test_projectRegex_inv _ E) as (org' & proj' & rest & [_ Ho'] & [_ Hp'] & H).
    unfold projectPath in H. simpl in H. injection H as H.
    apply segment_slash_unique in H as [<- H]; try assumption.
    simpl in H. injection H as ->.
    rewrite noSlash_slash in Hproj. discriminate Hproj. }
  split; [exact Hp|].
  rewrite (oldLocation_default _ Hp); [|reflexivity].
  reflexivity.
Qed.

Lemma project_without_final_slash_witness :
  test projectRegex "/settings/organization/acme/project/web" = false /\
  oldLocation "/settings/organization/acme/project/web"
  = "/organizations/acme/project/web".
Proof.
  apply (project_without_final_slash "acme" "web");
    apply segment_intro; [discriminate | reflexivity | discriminate | reflexivity].
Defined.

(** The account pattern asks for a slash after the section: the path
    [/settings/account/] followed by a text without a slash matches no
    pattern and is returned as it is, and since it contains [/account/] the
    component renders a plain anchor whose [href] is the path itself. *)
Theorem account_without_final_slash (l : Location) (tail : string) :
  noSlash tail = true ->
  oldLocation ("/settings/account/" ++ tail) = "/settings/account/" ++ tail /\
  NewSettingsWarning (Some (<["pathname" := "/settings/account/" ++ tail]> l))
  = Some {| element := Anchor;
            props := {| href := Some ("/settings/account/" ++ tail); to := None |} |}.
Proof.
  intros Htail.
  assert (test accountRegex ("/settings/account/" ++ tail) = false) as Ha.
  { destruct (test accountRegex _) eqn:E; [exfalso|reflexivity].
    destruct (test_accountRegex_inv _ E) as (section & rest & _ & H).
    unfold accountPath in H. simpl in H. injection H as ->.
    rewrite noSlash_slash in Htail. discriminate Htail. }
  assert (oldLocation ("/settings/account/" ++ tail) = "/settings/account/" ++ tail) as Hold.
  { rewrite oldLocation_default; [reflexivity | reflexivity | exact Ha]. }
  split; [exact Hold|].
  rewrite (NewSettingsWarning_pathname _ ("/settings/account/" ++ tail))
    by apply lookup_insert_eq.
  assert (isRouter ("/settings/account/" ++ tail) = false) as ->.
  { apply isRouter_false. right. exists "/settings", tail. reflexivity. }
  now rewrite Hold.
Qed.

Lemma account_without_final_slash_witness :
  oldLocation ("/settings/account/" ++ "api") = "/settings/account/" ++ "api" /\
  NewSettingsWarning (Some (<["pathname" := "/settings/account/" ++ "api"]> ∅))
  = Some {| element := Anchor;
            props := {| href := Some ("/settings/account/" ++ "api"); to := None |} |}.
Proof. apply (account_without_final_slash ∅ "api"). reflexivity. Defined.

End LegacyPathEdges.

(** ** Lengths and plain account pages *)

Section LegacyPathBounds.
Import JSString RegExp SettingsLayout Spec.

Lemma replace_length_le (pat template s : string) :
  String.length (getSubstitution [] template) <= String.length pat ->
  String.length (JSString.replace pat template s) <= String.length s.
Proof.
  intros H. unfold JSString.replace.
  destruct (indexOf pat s) as [[before after]|] eqn:E; [|lia].
  rewrite (indexOf_Some _ _ _ _ E), !append_length. lia.
Qed.

(** The legacy path is never longer than the path it comes from: each
    branch replaces a text with a shorter one or with none. *)
Theorem oldLocation_not_longer (p : string) :
  String.length (oldLocation p) <= String.length p.
Proof.
  destruct (test projectRegex p) eqn:Hp.
  - rewrite (oldLocation_project _ Hp).
    destruct (test_projectRegex_inv _ Hp) as (org & proj & rest & Ho & Hpr & ->).
    rewrite replace_projectPath by assumption. unfold projectPath.
    simpl. rewrite !append_length. simpl. rewrite !append_length. simpl. lia.
  - destruct (test accountRegex p) eqn:Ha.
    + rewrite (oldLocation_account _ Hp Ha).
      destruct (test_accountRegex_inv _ Ha) as (section & rest & Hs & ->).
      rewrite accountRewrite_accountPath by assumption.
      etransitivity; [apply replace_length_le; simpl; lia|].
      etransitivity; [apply replace_length_le; simpl; lia|].
      etransitivity; [apply replace_length_le; simpl; lia|].
      etransitivity; [apply replace_length_le; simpl; lia|].
      unfold accountPath. simpl. lia.
    + rewrite (oldLocation_default _ Hp Ha).
      unfold RegExp.replace, exec. cbn [anchored organizationRegex body run].
      destruct (startsWith "/settings/organization/" p) as [rest|] eqn:E; [|lia].
      apply startsWith_Some in E as ->. simpl. lia.
Qed.

(** An account page whose rewritten path holds none of the four texts the
    account branch looks for is sent to [/account/settings/{section}/rest],
    with nothing else changed. *)
Theorem account_path_without_special_text (section rest : string) :
  segment section ->
  ~ contains "details/" ("/account/settings/" ++ section ++ "/" ++ rest) ->
  ~ contains "settings/close-account/" ("/account/settings/" ++ section ++ "/" ++ rest) ->
  ~ contains "account/settings/api/" ("/account/settings/" ++ section ++ "/" ++ rest) ->
  ~ contains "auth-tokens/" ("/account/settings/" ++ section ++ "/" ++ rest) ->
  oldLocation ("/settings/account/" ++ section ++ "/" ++ rest)
  = "/account/settings/" ++ section ++ "/" ++ rest.
Proof.
  intros Hs H1 H2 H3 H4. fold (accountPath section rest).
  rewrite oldLocation_account;
    [|apply test_projectRegex_accountPath | now apply test_accountPath].
  rewrite accountRewrite_accountPath by assumption.
  rewrite (replace_absent "details/") by assumption.
  rewrite (replace_absent "settings/close-account/") by assumption.
  rewrite (replace_absent "account/settings/api/") by assumption.
  now rewrite (replace_absent "auth-tokens/") by assumption.
Qed.

Lemma account_path_without_special_text_witness :
  oldLocation ("/settings/account/" ++ "notifications" ++ "/" ++ "email/")
  = "/account/settings/" ++ "notifications" ++ "/" ++ "email/".
Proof.
  apply (account_path_without_special_text "notifications" "email/");
    [apply segment_intro; [discriminate | reflexivity] | ..];
    apply indexOf_None; reflexivity.
Defined.

End LegacyPathBounds.

(** ** The team's submit handler and the danger zone, with the translator *)

Section AcrossViews.
Import JSString RegExp SettingsLayout Spec.
Import ProjectGeneralSettings TeamSettingsSubmit.

Lemma team_settings_path_not_project (org tail : string) :
  noSlash org = true ->
  test projectRegex ("/settings/organization/" ++ org ++ "/teams/" ++ tail) = false.
Proof.
  intros Horg. destruct (test projectRegex _) eqn:E; [exfalso|reflexivity].
  destruct (test_projectRegex_inv _ E) as (org' & proj & rest & [_ Ho'] & _ & H).
  unfold projectPath in H. simpl in H. injection H as H.
  apply segment_slash_unique in H as [_ H]; try assumption.
  discriminate H.
Qed.

(** The submit handler does nothing unless the saved field is the slug.
    When it is, it makes four calls in this order: the loading message,
    [window.location.assign], [router.push] and [setState] with
    [loading] true; the window and the router are given the same team
    settings path, built from the organization and the new slug. When the
    organization is a path segment, the legacy path of that path is
    [/organizations/{orgId}/teams/{slug}/settings/]. *)
Theorem handleSubmitSuccess_navigation (params : Params)
        (getValue : string -> string) (id : string) :
  let url := "/settings/organization/" ++ orgId params ++ "/teams/"
               ++ getValue "slug" ++ "/settings/" in
  (id <> "slug" -> handleSubmitSuccess params getValue id = []) /\
  (id = "slug" ->
   handleSubmitSuccess params getValue id
   = [ AddLoadingMessage "Slug changed, refreshing page...";
       LocationAssign url; RouterPush url; SetState true ]) /\
  (forall u, In (LocationAssign u) (handleSubmitSuccess params getValue id)
             <-> id = "slug" /\ u = url) /\
  (forall u, In (RouterPush u) (handleSubmitSuccess params getValue id)
             <-> id = "slug" /\ u = url) /\
  (segment (orgId params) ->
   oldLocation url
   = "/organizations/" ++ orgId params ++ "/teams/" ++ getValue "slug" ++ "/settings/").
Proof.
  cbv zeta. unfold handleSubmitSuccess.
  destruct (String.eqb_spec id "slug") as [->|Hne].
  - split; [now intros H|]. split; [reflexivity|].
    split; [|split].
    + intros u. split.
      * intros [H|[H|[H|[H|[]]]]]; try discriminate H.
        injection H as <-. now split.
      * intros [_ ->]. right. now left.
    + intros u. split.
      * intros [H|[H|[H|[H|[]]]]]; try discriminate H.
        injection H as <-. now split.
      * intros [_ ->]. right. right. now left.
    + intros [_ Horg].
      rewrite oldLocation_default;
        [reflexivity | now apply team_settings_path_not_project | reflexivity].
  - split; [reflexivity|]. split; [now intros ->|].
    split; [|split].
    + intros u. split; [intros [] | now intros [-> _]].
    + intros u. split; [intros [] | now intros [-> _]].
    + intros [_ Horg].
      rewrite oldLocation_default;
        [reflexivity | now apply team_settings_path_not_project | reflexivity].
Qed.

(** The two fields of the Project Administration panel are gated alike:
    one is a link exactly when the other is. For an administrator of an
    internal project both show the same help text, the one about removal;
    without the scope each shows its own text. *)
Theorem danger_fields_agree (getAccess : Organization -> gset string)
        (organization : Organization) (params : Params) (project : Project) :
  let remove := renderRemoveProject getAccess organization params project in
  let transfer := renderTransferProject getAccess organization params project in
  isActionLink remove = isActionLink transfer /\
  ("project:admin" ∈ getAccess organization -> isInternal project = true ->
   remove = transfer /\
   remove = HelpOnly
     "This project cannot be removed. It is used internally by the Sentry server.") /\
  ("project:admin" ∉ getAccess organization ->
   remove = HelpOnly "You do not have the required permission to remove this project." /\
   transfer = HelpOnly "You do not have the required permission to transfer this project.").
Proof.
  cbv zeta. unfold renderRemoveProject, renderTransferProject.
  rewrite <- (has_true "project:admin").
  destruct (has "project:admin" (getAccess organization));
    destruct (isInternal project); simpl; intuition congruence.
Qed.

(** For a viewer with the scope and a project that is not internal, the
    two links of the panel point below the legacy settings page of the
    project, the one the translator gives for
    [/settings/organization/{orgId}/project/{projectId}/]. *)
Theorem danger_links_below_legacy_settings
        (getAccess : Organization -> gset string)
        (organization : Organization) (params : Params) (project : Project) :
  segment (orgId params) -> segment (projectId params) ->
  "project:admin" ∈ getAccess organization -> isInternal project = false ->
  let legacy :=
    oldLocation ("/settings/organization/" ++ orgId params ++ "/project/"
                   ++ projectId params ++ "/") in
  renderRemoveProject getAccess organization params project
  = ActionLink "Remove Project" (legacy ++ "remove/") /\
  renderTransferProject getAccess organization params project
  = ActionLink "Transfer Project" (legacy ++ "transfer/").
Proof.
  intros Horg Hproj Hadmin Hint. cbv zeta.
  assert (oldLocation ("/settings/organization/" ++ orgId params ++ "/project/"
                         ++ projectId params ++ "/")
          = "/" ++ orgId params ++ "/" ++ projectId params ++ "/settings/") as ->.
  { change ("/settings/organization/" ++ orgId params ++ "/project/"
              ++ projectId params ++ "/")
      with (projectPath (orgId params) (projectId params) EmptyString).
    rewrite oldLocation_project by now apply test_projectPath.
    now rewrite replace_projectPath by assumption. }
  string_norm. split.
  - now apply renderRemoveProject_link.
  - now apply renderTransferProject_link.
Qed.

Lemma danger_links_below_legacy_settings_witness :
  let params := {| orgId := "acme"; projectId := "web"; teamId := "ops" |} in
  let legacy :=
    oldLocation ("/settings/organization/" ++ "acme" ++ "/project/" ++ "web" ++ "/") in
  renderRemoveProject (fun o => newSet (access o)) {| access := ["project:admin"] |}
    params {| slug := "web"; isInternal := false |}
  = ActionLink "Remove Project" (legacy ++ "remove/") /\
  renderTransferProject (fun o => newSet (access o)) {| access := ["project:admin"] |}
    params {| slug := "web"; isInternal := false |}
  = ActionLink "Transfer Project" (legacy ++ "transfer/").
Proof.
  apply (danger_links_below_legacy_settings
           (fun o => newSet (access o)) {| access := ["project:admin"] |}
           {| orgId := "acme"; projectId := "web"; teamId := "ops" |}
           {| slug := "web"; isInternal := false |}).
  - apply segment_intro; [discriminate | reflexivity].
  - apply segment_intro; [discriminate | reflexivity].
  - apply (proj1 (has_true "project:admin" (newSet ["project:admin"]))).
    reflexivity.
  - reflexivity.
Defined.

End AcrossViews.

(** ** Organization pages and the missing path name *)

Section OrganizationPages.
Import JSString RegExp SettingsLayout Spec.

(** A page of an organization that is not below [project/] is moved from
    [/settings/organization/] to [/organizations/], with the rest of the
    path as it is. *)
Theorem organization_page_moved (org tail : string) :
  segment org ->
  startsWith "project/" tail = None ->
  oldLocation ("/settings/organization/" ++ org ++ "/" ++ tail)
  = "/organizations/" ++ org ++ "/" ++ tail.
Proof.
  intros [_ Horg] Htail.
  rewrite oldLocation_default; [reflexivity | | reflexivity].
  destruct (test projectRegex _) eqn:E; [exfalso|reflexivity].
  destruct (test_projectRegex_inv _ E) as (org' & proj & rest & [_ Ho'] & _ & H).
  unfold projectPath in H. simpl in H. injection H as H.
  apply segment_slash_unique in H as [_ H]; try assumption.
  now apply (startsWith_None _ _ Htail (proj ++ "/" ++ rest)).
Qed.

Lemma organization_page_moved_witness :
  oldLocation ("/settings/organization/" ++ "acme" ++ "/" ++ "members/new/")
  = "/organizations/" ++ "acme" ++ "/" ++ "members/new/".
Proof.
  apply (organization_page_moved "acme" "members/new/");
    [apply segment_intro; [discriminate | reflexivity] | reflexivity].
Defined.



End OrganizationPages.
